(** * The gulp build script of the driver: source transform, version
      stamping and the task graph of [gulpfile.babel.js]. *)

From Stdlib Require Import String Ascii List Bool Arith ZArith Lia.
From stdpp Require Import gmap strings.
Import ListNotations.

Local Open Scope string_scope.

(** ** JavaScript string primitives used by the script

    Strings are sequences of code units; the script only inspects and
    rebuilds them with [slice], [replace], [split] and [join]. *)
Module JsString.

(** [s.slice(start)] for a start index that is already clamped into
    the string. *)
Fixpoint drop (n : nat) (s : string) : string :=
  match n, s with
  | O, _ => s
  | S _, EmptyString => EmptyString
  | S n', String _ s' => drop n' s'
  end.

Fixpoint take (n : nat) (s : string) : string :=
  match n, s with
  | O, _ => EmptyString
  | S _, EmptyString => EmptyString
  | S n', String c s' => String c (take n' s')
  end.

(** [s.slice(-n)]: a negative start counts from the end and is clamped
    to the beginning of the string ([max (length - n) 0], which is what
    the truncated subtraction of [nat] computes). *)
Definition slice_from_end (n : nat) (s : string) : string :=
  drop (String.length s - n) s.

(** [s.replace(searchValue, replaceValue)] with a string pattern: only
    the first occurrence of [searchValue] is replaced. The replacement
    strings of the script hold no [$] pattern, so the replacement is
    inserted as it is. *)
Fixpoint replace (searchValue replaceValue s : string) : string :=
  if String.prefix searchValue s
  then replaceValue +:+ drop (String.length searchValue) s
  else match s with
       | EmptyString => EmptyString
       | String c s' => String c (replace searchValue replaceValue s')
       end.

(** [s.split(separator)] for a string separator. [skip] counts the
    code units of a matched separator that are still to be consumed,
    [cur] is the chunk being read. *)
Fixpoint split_aux (separator : string) (skip : nat) (cur s : string)
  : list string :=
  match s with
  | EmptyString => [cur]
  | String c s' =>
      match skip with
      | S k => split_aux separator k cur s'
      | O =>
          if String.prefix separator s
          then cur :: split_aux separator (String.length separator - 1)
                            EmptyString s'
          else split_aux separator 0 (cur +:+ String c EmptyString) s'
      end
  end.

Definition split (separator s : string) : list string :=
  match separator with
  | EmptyString =>
      List.map (fun c => String c EmptyString) (list_ascii_of_string s)
  | _ => split_aux separator 0 EmptyString s
  end.

(** [chunks.join(glue)] *)
Fixpoint join (glue : string) (chunks : list string) : string :=
  match chunks with
  | [] => EmptyString
  | [x] => x
  | x :: rest => x +:+ glue +:+ join glue rest
  end.

(** The start indices at which [pat] occurs in [s]. *)
Definition occurrences (pat s : string) : list nat :=
  List.filter (fun i => String.prefix pat (drop i s))
              (List.seq 0 (S (String.length s))).

End JsString.

(** ** The source transform applied to browser bundles *)
Module Transform.

Definition nodeRequire : string := "/node".
Definition browserRequire : string := "/browser".

(** The callback handed to [makeRequireTransform], on the evaluated
    first argument of a [require] call. [Some code] stands for
    [cb(null, code)], the text that replaces the call; [None] stands
    for [cb()], which leaves the call as it is. *)
Definition browserifyTransformNodeToBrowserRequire (requireArg : string)
  : option string :=
  let endsWithNodeRequire :=
    String.eqb
      (JsString.slice_from_end (String.length nodeRequire) requireArg)
      nodeRequire in
  if endsWithNodeRequire then
    let newRequireArg :=
      JsString.replace nodeRequire browserRequire requireArg in
    Some ("require('" +:+ newRequireArg +:+ "')")
  else None.

(** The module reference the bundle holds after the transform: the
    argument of the emitted call, or the original argument when the
    call is left alone. *)
Definition rewrite (requireArg : string) : string :=
  if String.eqb
       (JsString.slice_from_end (String.length nodeRequire) requireArg)
       nodeRequire
  then JsString.replace nodeRequire browserRequire requireArg
  else requireArg.

End Transform.

(** ** The [set] task: stamping the version *)
Module Stamper.

(** The value of [--version] as minimist hands it over with
    [{ string: 'version' }]: a string, or [undefined] when the flag is
    absent. *)
Inductive js_value : Type :=
| undefined
| str (s : string).

(** Conversion of a value inside a template literal. *)
Definition to_template (v : js_value) : string :=
  match v with
  | undefined => "undefined"
  | str s => s
  end.

Inductive js_error : Type :=
| Error (message : string)
| FileNotFound (path : string).

Definition quote : string := String (ascii_of_nat 34) EmptyString.

(** [path.join('src', 'version.js')] *)
Definition versionFile : string := "src/version.js".

Definition placeholder : string := "0.0.0-dev".

(** gulp-replace with a string pattern on a buffered file: the
    contents are split at the pattern and joined with the replacement,
    so every occurrence is replaced. *)
Definition gulp_replace (search replacement contents : string) : string :=
  JsString.join replacement (JsString.split search contents).

Section SetTask.

(** [semver.valid] of the semver package, on strings: whether the
    result is truthy. It answers [null] on anything that is not a
    string. *)
Variable semver_valid : string -> bool.

(** What [String(file.contents)] followed by [Buffer.from] makes of the
    bytes of a file, as gulp-replace does on a buffered file: the bytes
    are decoded as UTF-8 and encoded again. Well-formed UTF-8 comes
    back as it is; an ill-formed sequence comes back as the encoding of
    the replacement character. *)
Variable utf8_roundtrip : string -> string.

Definition valid (version : js_value) : bool :=
  match version with
  | undefined => false
  | str s => semver_valid s
  end.

(** The task on a source tree, a finite map from paths to the bytes of
    the files. It returns the error that ends the task, if any, and the
    tree it leaves behind. [gulp.src] of a single plain path fails when
    the file is missing; [gulp.dest('./')] with base ['./'] writes the
    file back to the path it was read from. The placeholder is ASCII,
    so splitting the decoded text at it and encoding the result is
    splitting the re-encoded bytes at it. *)
Definition set (version : js_value) (fs : gmap string string)
  : option js_error * gmap string string :=
  if negb (valid version) then
    (Some (Error ("Invalid version " +:+ quote +:+ to_template version
                  +:+ quote)), fs)
  else
    match fs !! versionFile with
    | None => (Some (FileNotFound versionFile), fs)
    | Some contents =>
        (None,
         <[versionFile :=
             gulp_replace placeholder (to_template version)
               (utf8_roundtrip contents)]> fs)
    end.

(** The stamping property in the words of the specification: the task
    succeeds, one occurrence of the placeholder in the designated file
    is rewritten to the version, and every other file is as before. *)
Definition stamps_exactly_one (version : string)
    (fs : gmap string string) : Prop :=
  exists fs' pre post,
    set (str version) fs = (None, fs')
    /\ fs !! versionFile = Some (pre +:+ placeholder +:+ post)
    /\ fs' !! versionFile = Some (pre +:+ version +:+ post)
    /\ forall p, p <> versionFile -> fs' !! p = fs !! p.

End SetTask.

(** An instance of the validity check for evaluation, narrower than
    [semver.valid]: the plain MAJOR.MINOR.PATCH versions with numeric
    identifiers that carry no leading zero. *)
Definition is_digit (c : ascii) : bool :=
  let n := nat_of_ascii c in ((48 <=? n) && (n <=? 57))%nat.

Definition numeric_identifier (s : string) : bool :=
  match s with
  | EmptyString => false
  | String c EmptyString => is_digit c
  | String c rest =>
      negb (Ascii.eqb c "0"%char)
      && List.forallb is_digit (c :: list_ascii_of_string rest)
  end.

Definition core_semver_valid (s : string) : bool :=
  match JsString.split "." s with
  | [major; minor; patch] =>
      numeric_identifier major && numeric_identifier minor
      && numeric_identifier patch
  | _ => false
  end.

(** The tree after an earlier stamping: the placeholder is gone. *)
Definition stamped_tree : gmap string string :=
  {[ versionFile := "export default '1.0.0'" ]}.

(** A tree whose version file names the placeholder twice. *)
Definition two_token_tree : gmap string string :=
  {[ versionFile := "/* 0.0.0-dev */ export default '0.0.0-dev'" ]}.

(** The round trip on files that are ASCII throughout. *)
Definition ascii_roundtrip (contents : string) : string := contents.

End Stamper.

(** ** The task graph *)
Module Gulp.

Inductive engine : Type := chrome | firefox | edge | ie.

(** The functions the script hands to [gulp.task] and [gulp.series],
    named after the task they belong to. *)
Inductive action : Type :=
| build_browser_fn
| build_browser_test_fn
| nodejs_fn
| sandbox_install_fn
| jasmine_nodejs_fn
| runKarma (b : engine)
| watch_fn
| watch_tests_fn
| set_fn
| start_neo4j_fn
| stop_neo4j_fn
| run_stress_tests_fn
| ts_declaration_tests_fn.

(** The engine names [runKarma] is called with, and the configuration
    file it hands to the Karma server (below [__dirname]). *)
Definition engine_name (b : engine) : string :=
  match b with
  | chrome => "chrome"
  | firefox => "firefox"
  | edge => "edge"
  | ie => "ie"
  end.

Definition configFile (b : engine) : string :=
  "/test/browser/karma-" +:+ engine_name b +:+ ".conf.js".

#[global] Instance engine_eq_dec : EqDecision engine.
Proof. solve_decision. Defined.

#[global] Instance action_eq_dec : EqDecision action.
Proof. solve_decision. Defined.

#[local] Set Warnings "-register-all".

(** A task is a function or a composition of tasks. gulp composes with
    [series] and with [parallel]; a task name given to either is
    looked up when the composition is built. *)
Inductive task : Type :=
| Fn (a : action)
| Series (ts : list task)
| Parallel (ts : list task).

Definition build_browser : task := Fn build_browser_fn.
Definition build_browser_test : task := Fn build_browser_test_fn.
Definition nodejs : task := Fn nodejs_fn.
Definition install_driver_into_sandbox : task :=
  Series [nodejs; Fn sandbox_install_fn].
Definition test_nodejs : task :=
  Series [install_driver_into_sandbox; Fn jasmine_nodejs_fn].
Definition run_browser_test_chrome : task := Fn (runKarma chrome).
Definition run_browser_test_firefox : task := Fn (runKarma firefox).
Definition run_browser_test_edge : task := Fn (runKarma edge).
Definition run_browser_test_ie : task := Fn (runKarma ie).
Definition run_browser_test : task := Series [run_browser_test_firefox].
Definition watch : task := Fn watch_fn.
Definition watch_n_test : task := Series [test_nodejs; Fn watch_tests_fn].
Definition set : task := Fn set_fn.
Definition start_neo4j : task := Fn start_neo4j_fn.
Definition stop_neo4j : task := Fn stop_neo4j_fn.
Definition run_stress_tests : task := Fn run_stress_tests_fn.
Definition run_ts_declaration_tests : task := Fn ts_declaration_tests_fn.
Definition browser : task := Series [build_browser_test; build_browser].
Definition all : task := Series [nodejs; browser].
Definition test_browser : task := Series [all; run_browser_test].
Definition test : task :=
  Series [run_ts_declaration_tests; test_nodejs; test_browser].
Definition default : task := Series [test].

(** The registry [gulp.task] fills, in the order of the script. *)
Definition registry : list (string * task) :=
  [ ("build-browser", build_browser);
    ("build-browser-test", build_browser_test);
    ("nodejs", nodejs);
    ("install-driver-into-sandbox", install_driver_into_sandbox);
    ("test-nodejs", test_nodejs);
    ("run-browser-test-chrome", run_browser_test_chrome);
    ("run-browser-test-firefox", run_browser_test_firefox);
    ("run-browser-test-edge", run_browser_test_edge);
    ("run-browser-test-ie", run_browser_test_ie);
    ("run-browser-test", run_browser_test);
    ("watch", watch);
    ("watch-n-test", watch_n_test);
    ("set", set);
    ("start-neo4j", start_neo4j);
    ("stop-neo4j", stop_neo4j);
    ("run-stress-tests", run_stress_tests);
    ("run-ts-declaration-tests", run_ts_declaration_tests);
    ("browser", browser);
    ("all", all);
    ("test-browser", test_browser);
    ("test", test);
    ("default", default) ].

(** The functions of a task, in the order of the script. *)
Fixpoint functions (t : task) : list action :=
  match t with
  | Fn a => [a]
  | Series ts => List.flat_map functions ts
  | Parallel ts => List.flat_map functions ts
  end.


(** The engines a list of functions launches. *)
Fixpoint engines (l : list action) : list engine :=
  match l with
  | [] => []
  | runKarma b :: l' => b :: engines l'
  | _ :: l' => engines l'
  end.

(** *** Orderings a composition admits *)

Inductive event : Type :=
| Started (a : action)
| Finished (a : action).

Fixpoint interleave {A : Type} (l1 l2 : list A) : list (list A) :=
  match l1 with
  | [] => [l2]
  | x :: l1' =>
      (fix inner (l2 : list A) : list (list A) :=
         match l2 with
         | [] => [l1]
         | y :: l2' =>
             List.app (List.map (cons x) (interleave l1' l2))
                      (List.map (cons y) (inner l2'))
         end) l2
  end.

Definition seq_all {A : Type} (ss1 ss2 : list (list A)) : list (list A) :=
  List.flat_map (fun s1 => List.map (app s1) ss2) ss1.

Definition par_all {A : Type} (ss1 ss2 : list (list A)) : list (list A) :=
  List.flat_map (fun s1 => List.flat_map (interleave s1) ss2) ss1.

(** Every order of starts and completions the composition allows when
    nothing fails: [series] starts a task when the one before it has
    completed, [parallel] starts all of its tasks at once. *)
Fixpoint schedules (t : task) : list (list event) :=
  match t with
  | Fn a => [[Started a; Finished a]]
  | Series ts =>
      (fix go (l : list task) : list (list event) :=
         match l with
         | [] => [[]]
         | t' :: l' => seq_all (schedules t') (go l')
         end) ts
  | Parallel ts =>
      (fix go (l : list task) : list (list event) :=
         match l with
         | [] => [[]]
         | t' :: l' => par_all (schedules t') (go l')
         end) ts
  end.

Fixpoint uses_parallel (t : task) : bool :=
  match t with
  | Fn _ => false
  | Series ts => List.existsb uses_parallel ts
  | Parallel _ => true
  end.

(** [b] starts while [a] is running. *)
Fixpoint starts_during (a b : action) (running : bool) (s : list event)
  : bool :=
  match s with
  | [] => false
  | Started x :: s' =>
      (running && bool_decide (x = b))
      || starts_during a b (running || bool_decide (x = a)) s'
  | Finished x :: s' =>
      starts_during a b (running && negb (bool_decide (x = a))) s'
  end.

Definition concurrent (a b : action) (s : list event) : bool :=
  starts_during a b false s || starts_during b a false s.

(** Some admitted order runs [a] and [b] at the same time. *)
Definition may_run_in_parallel (a b : action) (t : task) : bool :=
  List.existsb (concurrent a b) (schedules t).

(** Every start of [b] comes after a completion of [a]. *)
Fixpoint completes_before_start (a b : action) (completed : bool)
  (s : list event) : bool :=
  match s with
  | [] => true
  | Started x :: s' =>
      (negb (bool_decide (x = b)) || completed)
      && completes_before_start a b completed s'
  | Finished x :: s' =>
      completes_before_start a b (completed || bool_decide (x = a)) s'
  end.

(** The functions of the build chain. *)
Definition builders : list action :=
  [nodejs_fn; build_browser_test_fn; build_browser_fn].

(** *** Running a task *)

(** How a function ends: it signals completion, it signals an error
    (its stream or promise fails, or it throws), or it ends the process
    itself with [process.exit(code)]. *)
Inductive outcome : Type :=
| Completed
| Errored
| Exited (code : Z).

(** What the external tools answer in one invocation. A function that
    is started twice in one invocation ([nodejs] in [test]) gets the
    same answers both times. *)
Record world : Type := {
  (** the tools the function drives end without error: its streams
      end, its bundle is written *)
  stream_ok : action -> bool;
  (** exit code of the dependency installation gulp-install spawns *)
  npm_install_exit : Z;
  (** the launcher reports a failed run for the engine: a failed
      assertion, or an engine that could not be driven *)
  karma_failed : engine -> bool;
  (** the declaration check emits an error *)
  ts_errors : bool
}.

Definition signalled (w : world) (a : action) : outcome :=
  if stream_ok w a then Completed else Errored.

(** The exit code the Karma server hands to its callback: 1 for a
    failed run, 0 otherwise. *)
Definition karma_server_start (w : world) (b : engine) : Z :=
  if karma_failed w b then 1%Z else 0%Z.

(** How each function ends. [runKarma] ends the process with the exit
    code of the Karma server when that code is truthy and calls its
    callback otherwise. The declaration check ends the process with
    code 1 when the type checker emitted an error. The stream of the
    sandbox installation fails when the installation it spawns exits
    with a non-zero code. The functions of [build-browser] and
    [build-browser-test] are async functions: the promise gulp waits
    for resolves at once, before the bundle is written, and an error
    of the bundle is only logged. Every other function ends as the
    stream it returns does. *)
Definition perform (w : world) (a : action) : outcome :=
  match a with
  | runKarma b =>
      let exitCode := karma_server_start w b in
      if (exitCode =? 0)%Z then Completed else Exited exitCode
  | ts_declaration_tests_fn =>
      if ts_errors w then Exited 1 else signalled w a
  | sandbox_install_fn =>
      if (npm_install_exit w =? 0)%Z then signalled w a else Errored
  | build_browser_fn | build_browser_test_fn => Completed
  | _ => signalled w a
  end.

(** A run follows an admitted order until a function does not
    complete: nothing is started after that. The run is the list of the
    functions that were started and the way the run ended. *)
Fixpoint run_schedule (w : world) (s : list event) : list action * outcome :=
  match s with
  | [] => ([], Completed)
  | Started a :: s' =>
      let '(started, o) := run_schedule w s' in (a :: started, o)
  | Finished a :: s' =>
      match perform w a with
      | Completed => run_schedule w s'
      | o => ([], o)
      end
  end.

Definition runs (w : world) (t : task) : list (list action * outcome) :=
  List.map (run_schedule w) (schedules t).

(** Exit code of the gulp process: the code given to [process.exit]
    (the script only ever hands it 1), 1 when a task signalled an
    error, 0 when the run completed. *)
Definition exit_code (o : outcome) : Z :=
  match o with
  | Completed => 0
  | Errored => 1
  | Exited code => code
  end.

(** The way the function of [set] ends, from what the stamper
    returns: a thrown error or a failed stream is an error of the
    task. *)
Definition set_outcome (r : option Stamper.js_error) : outcome :=
  match r with
  | None => Completed
  | Some _ => Errored
  end.




Inductive status : Type := pass | failed.

(** Modelled from the spec: the Test Run Result record of the data
    model, one per environment, with the identity of the environment
    and its status. The script builds no such record itself; the status
    is read off the way the engine's function ends. *)
Record test_run_result : Type := {
  environment : engine;
  result_status : status
}.

Definition result_record (w : world) (b : engine) : test_run_result :=
  {| environment := b;
     result_status :=
       match perform w (runKarma b) with
       | Completed => pass
       | _ => failed
       end |}.

(** The order of starts and completions of a list of functions run
    one after the other. *)
Definition events (l : list action) : list event :=
  List.flat_map (fun a => [Started a; Finished a]) l.

End Gulp.

(** ** The function of [install-driver-into-sandbox] *)
Module Sandbox.

(** [path.join('build', 'sandbox')] *)
Definition testDir : string := "build/sandbox".

Definition backslash : string := String (ascii_of_nat 92) EmptyString.

Definition hex_digit (n : nat) : string :=
  String (ascii_of_nat (if (n <? 10)%nat then 48 + n else 87 + n))
         EmptyString.

(** [JSON.stringify] on a string, one code unit at a time: the quote
    and the backslash are escaped, the control characters get their
    short escape or a lower-case [u] escape, everything else is kept. *)
Definition json_escape_char (c : ascii) : string :=
  let n := nat_of_ascii c in
  if (n =? 8)%nat then backslash +:+ "b"
  else if (n =? 9)%nat then backslash +:+ "t"
  else if (n =? 10)%nat then backslash +:+ "n"
  else if (n =? 12)%nat then backslash +:+ "f"
  else if (n =? 13)%nat then backslash +:+ "r"
  else if (n =? 34)%nat then backslash +:+ Stamper.quote
  else if (n =? 92)%nat then backslash +:+ backslash
  else if (n <? 32)%nat
       then backslash +:+ "u00" +:+ hex_digit (n / 16)
            +:+ hex_digit (n mod 16)
       else String c EmptyString.

Fixpoint json_escape (s : string) : string :=
  match s with
  | EmptyString => EmptyString
  | String c s' => json_escape_char c +:+ json_escape s'
  end.

Definition json_string (s : string) : string :=
  Stamper.quote +:+ json_escape s +:+ Stamper.quote.

(** [JSON.stringify({ private: true, dependencies: { 'neo4j-driver':
    __dirname } })] *)
Definition packageJsonContent (dirname : string) : string :=
  "{" +:+ json_string "private" +:+ ":true,"
  +:+ json_string "dependencies" +:+ ":{"
  +:+ json_string "neo4j-driver" +:+ ":" +:+ json_string dirname
  +:+ "}}".

(** [p] lies below the directory [dir]. *)
Definition inside (dir p : string) : bool :=
  String.prefix (dir +:+ "/") p.

(** The directory and the directories above it, outermost first. *)
Fixpoint ancestors_from (base : string) (segments : list string)
  : list string :=
  match segments with
  | [] => []
  | x :: rest =>
      let here :=
        match base with
        | EmptyString => x
        | _ => base +:+ "/" +:+ x
        end in
      here :: ancestors_from here rest
  end.

Definition ancestors (dir : string) : list string :=
  ancestors_from EmptyString (JsString.split "/" dir).

(** [fs.emptyDirSync(dir)] on a tree of files: what lies below [dir]
    is removed, a missing directory is created. It throws ([None]) when
    [dir] or a directory above it is a file. *)
Definition emptyDirSync (dir : string) (fs : gmap string string)
  : option (gmap string string) :=
  if List.existsb (fun a => bool_decide (is_Some (fs !! a))) (ancestors dir)
  then None
  else Some (filter (fun kv => inside dir (fst kv) = false) fs).

(** The function up to the point where the installation is spawned:
    the sandbox is emptied and the package descriptor is written into
    it. [None] when emptying throws. *)
Definition prepare (dirname : string) (fs : gmap string string)
  : option (gmap string string) :=
  match emptyDirSync testDir fs with
  | None => None
  | Some emptied =>
      Some (<[testDir +:+ "/package.json" := packageJsonContent dirname]>
              emptied)
  end.


End Sandbox.

(** ** The function of [build-browser-test] *)
Module BrowserTest.

Section Through.

Context {A B S : Type}.

(** [through.obj(transform, flush)]: [transform] sees every chunk and
    the state the closures share, [flush] runs at the end of the
    stream; both may push chunks downstream. *)
Variable transform : S -> A -> S * list B.
Variable flush : S -> list B.

Fixpoint through_obj (st : S) (chunks : list A) : list B :=
  match chunks with
  | [] => flush st
  | c :: cs =>
      let '(st', pushed) := transform st c in
      (pushed ++ through_obj st' cs)%list
  end.

End Through.

(** A file of the stream, as far as the function looks at it. *)
Record vinyl : Type := { path : string; contents : string }.

(** A call of the bundler and the file its bundle is written to. *)
Record bundle_call : Type := {
  entries : list string;
  debug : bool;
  destination : string
}.

Definition browserOutput : string := "build/browser/".

(** The first stage collects the paths in [testFiles] and pushes the
    list once, at the end of the stream. *)
Definition collect (testFiles : list string) (file : vinyl)
  : list string * list (list string) :=
  ((testFiles ++ [path file])%list, []).

Definition collect_flush (testFiles : list string)
  : list (list string) :=
  [testFiles].

(** The second stage bundles every list it receives. *)
Definition bundle (st : unit) (testFiles : list string)
  : unit * list bundle_call :=
  (st, [{| entries := testFiles; debug := true;
           destination := browserOutput +:+ "neo4j-web.test.js" |}]).

Definition bundle_flush (st : unit) : list bundle_call := [].

(** The bundler calls the function makes on the files [gulp.src]
    hands it. *)
Definition build_browser_test (files : list vinyl) : list bundle_call :=
  through_obj bundle bundle_flush tt
    (through_obj collect collect_flush [] files).

End BrowserTest.

(** * Properties *)

Import Gulp.

(** ** The task graph *)

Ltac case_world :=
  repeat match goal with
    | |- context [if ?b then _ else _] => destruct b eqn:?
    | H : context [if ?b then _ else _] |- _ => destruct b eqn:?
    end.

Ltac unfold_perform :=
  cbv [runs schedules seq_all par_all flat_map List.map List.app
       test default test_nodejs test_browser all browser
       install_driver_into_sandbox run_browser_test watch_n_test
       run_browser_test_firefox run_browser_test_chrome
       run_browser_test_edge run_browser_test_ie nodejs build_browser
       build_browser_test run_ts_declaration_tests watch set start_neo4j
       stop_neo4j run_stress_tests
       run_schedule perform signalled karma_server_start] in *.

(** C5: when the dependency installation in the sandbox exits with a
    non-zero code, no run of [test-nodejs], nor of any other registered
    task, starts the function that executes the node test suite. *)
Theorem install_failure_skips_node_tests (w : world) (name : string)
    (t : task) (r : list action * outcome) :
  npm_install_exit w <> 0%Z ->
  In (name, t) registry ->
  In r (runs w t) ->
  ~ In jasmine_nodejs_fn (fst r).
Proof.
  intros Hexit Hreg Hr. apply Z.eqb_neq in Hexit.
  unfold registry in Hreg. cbn [In] in Hreg.
  repeat match type of Hreg with
    | _ \/ _ => destruct Hreg as [Hreg | Hreg]
    end;
    try contradiction; injection Hreg as _ <-;
    unfold_perform; rewrite ?Hexit in Hr;
    destruct Hr as [<- | []];
    case_world; cbn; intros H; decompose [or] H; congruence.
Qed.

Lemma install_failure_skips_node_tests_witness :
  let w := {| stream_ok := fun _ => true; npm_install_exit := 1;
              karma_failed := fun _ => false; ts_errors := false |} in
  In ([nodejs_fn; sandbox_install_fn], Errored) (runs w test_nodejs)
  /\ ~ In jasmine_nodejs_fn [nodejs_fn; sandbox_install_fn].
Proof.
  intros w. split.
  - left. reflexivity.
  - apply (install_failure_skips_node_tests w "test-nodejs" test_nodejs
             ([nodejs_fn; sandbox_install_fn], Errored)).
    + cbn. lia.
    + cbn. tauto.
    + left. reflexivity.
Defined.

Lemma runs_run_browser_test_firefox (w : world) :
  runs w run_browser_test_firefox =
  [([runKarma firefox], perform w (runKarma firefox))].
Proof. unfold_perform. case_world; reflexivity. Qed.

Lemma forallb_id_false (l : list bool) :
  forallb id l = false <-> In false l.
Proof.
  induction l as [|[] l IH]; cbn; [split; [discriminate | tauto] | |].
  - rewrite IH. split; [tauto | intros [? | ?]; [discriminate | tauto]].
  - split; [tauto | reflexivity].
Qed.

(** C6: the launcher reports a failed run for an engine exactly when
    some assertion of the bundle fails in it. Under that reading of the
    launcher, a run of [run-browser-test-firefox] on a bundle with a
    failing assertion ends the process with a non-zero exit code and
    the record of the firefox engine is marked failed; on a bundle
    whose assertions all pass the exit code is zero. *)
Theorem firefox_task_exit_code (w : world) (assertions : list bool)
    (r : list action * outcome) :
  karma_failed w firefox = negb (forallb id assertions) ->
  In r (runs w run_browser_test_firefox) ->
  (In false assertions ->
     exit_code (snd r) <> 0%Z
     /\ result_record w firefox
        = {| environment := firefox; result_status := failed |})
  /\ (Forall (fun a => a = true) assertions -> exit_code (snd r) = 0%Z).
Proof.
  intros Hkarma Hr. rewrite runs_run_browser_test_firefox in Hr.
  destruct Hr as [<- | []].
  unfold result_record. cbv [snd perform karma_server_start].
  rewrite Hkarma. split.
  - intros Hfail. apply forallb_id_false in Hfail. rewrite Hfail.
    cbn. split; [discriminate | reflexivity].
  - intros Hall.
    assert (forallb id assertions = true) as ->; [| reflexivity].
    apply forallb_forall. intros a Ha.
    rewrite List.Forall_forall in Hall. rewrite (Hall a); [reflexivity |].
    exact Ha.
Qed.

Lemma firefox_task_exit_code_witness :
  let w := {| stream_ok := fun _ => true; npm_install_exit := 0;
              karma_failed := fun b => bool_decide (b = firefox);
              ts_errors := false |} in
  let r := ([runKarma firefox], Exited 1) in
  (In false [true; false; true] ->
     exit_code (snd r) <> 0%Z
     /\ result_record w firefox
        = {| environment := firefox; result_status := failed |})
  /\ (Forall (fun a => a = true) [true; false; true] ->
      exit_code (snd r) = 0%Z).
Proof.
  intros w r.
  apply (firefox_task_exit_code w [true; false; true] r).
  - reflexivity.
  - left. reflexivity.
Defined.

Lemma exit_code_perform (w : world) (a : action) :
  exit_code (perform w a) <> 0%Z <-> perform w a <> Completed.
Proof.
  destruct a; cbv [perform signalled karma_server_start];
    case_world; cbn; split; intros; try congruence; try lia.
Qed.

Lemma perform_exited (w : world) (a : action) (code : Z) :
  perform w a = Exited code -> code <> 0%Z.
Proof.
  intros H. pose proof (proj2 (exit_code_perform w a)) as Hcode.
  rewrite H in Hcode. apply Hcode. discriminate.
Qed.

Ltac pick_true :=
  match goal with
  | |- _ \/ _ => (left; pick_true) || (right; pick_true)
  | |- _ => first [reflexivity | assumption | congruence]
  end.




(** A failed declaration check ends the process before anything else
    is started. *)
Lemma declaration_errors_stop_test (w : world) :
  ts_errors w = true ->
  runs w test = [([ts_declaration_tests_fn], Exited 1)].
Proof. intros H. unfold_perform. rewrite H. reflexivity. Qed.

(** C9, as stated, fails: no order that [test] admits runs the
    declaration check at the same time as a function of the build
    chain. *)
Lemma test_serializes_declaration_check :
  ~ (exists b, In b builders
               /\ may_run_in_parallel ts_declaration_tests_fn b test = true).
Proof.
  intros (b & Hb & Hpar).
  cbn [builders In] in Hb.
  destruct Hb as [<- | [<- | [<- | []]]]; vm_compute in Hpar; discriminate.
Qed.

(** C9, amended: the script composes its tasks with [series] only. In
    the one order [test] admits, the declaration check has completed
    before any function of the build chain starts, and no registered
    task contains a parallel composition. *)
Theorem test_orders_check_before_builders :
  Forall (fun s =>
            forallb (fun b =>
                       completes_before_start ts_declaration_tests_fn b
                         false s) builders = true)
         (schedules test)
  /\ length (schedules test) = 1
  /\ forallb (fun nt => negb (uses_parallel (snd nt))) registry = true.
Proof.
  split; [| split]; [| reflexivity | reflexivity].
  repeat constructor.
Qed.

(** The same three tasks composed with [parallel] would admit an order
    in which the check and the node build overlap. *)
Example parallel_would_overlap :
  may_run_in_parallel ts_declaration_tests_fn nodejs_fn
    (Parallel [run_ts_declaration_tests; test_nodejs; test_browser]) = true.
Proof. vm_compute. reflexivity. Qed.

(** C10: a run of [run-browser-test] launches the firefox engine and
    nothing else; every run of [test] and of [test-browser] launches no
    engine but firefox, and launches it exactly once unless the run
    stops before; the tasks of the four engines are registered, each
    launching its own engine with its own configuration file, and any
    engine other than firefox is launched only by the task named after
    it. *)
Theorem default_browser_test_is_firefox :
  (forall w, runs w run_browser_test
             = [([runKarma firefox], perform w (runKarma firefox))])
  /\ (forall w,
        Forall (fun r => (engines (fst r) = [] /\ snd r <> Completed)
                         \/ engines (fst r) = [firefox])
               (runs w test ++ runs w test_browser)%list)
  /\ engines (functions test) = [firefox]
  /\ engines (functions test_browser) = [firefox]
  /\ (forall b, In ("run-browser-test-" +:+ engine_name b, Fn (runKarma b))
                   registry)
  /\ (forall w b, runs w (Fn (runKarma b))
                  = [([runKarma b], perform w (runKarma b))])
  /\ configFile firefox = "/test/browser/karma-firefox.conf.js"
  /\ forallb
       (fun nt =>
          forallb (fun b =>
                     bool_decide (b = firefox)
                     || String.eqb (fst nt)
                          ("run-browser-test-" +:+ engine_name b))
                  (engines (functions (snd nt))))
       registry = true.
Proof.
  split; [| split; [| repeat split]].
  - intros w. unfold_perform. case_world; reflexivity.
  - intros w. unfold_perform. cbn [engines fst snd].
    apply List.Forall_cons;
      [| apply List.Forall_cons; [| apply List.Forall_nil]];
      case_world; cbn [engines fst snd];
      first [right; reflexivity | left; split; [reflexivity | discriminate]].
  - intros []; vm_compute; tauto.
  - intros w b. unfold_perform. case_world; reflexivity.
Qed.

(** ** Facts about the string primitives *)

Section StringFacts.

Import JsString.

#[local] Arguments String.append !_ _ / : simpl nomatch.

Lemma append_empty_r (s : string) : s +:+ EmptyString = s.
Proof. induction s as [|c s IH]; cbn; [reflexivity | now rewrite IH]. Qed.

Lemma append_assoc (a b c : string) : (a +:+ b) +:+ c = a +:+ b +:+ c.
Proof. induction a as [|x a IH]; cbn; [reflexivity | now rewrite IH]. Qed.

Lemma length_append (a b : string) :
  String.length (a +:+ b) = String.length a + String.length b.
Proof. induction a as [|x a IH]; cbn; [reflexivity | now rewrite IH]. Qed.

Lemma drop_append (a b : string) : drop (String.length a) (a +:+ b) = b.
Proof. induction a as [|x a IH]; cbn; [now destruct b | exact IH]. Qed.

Lemma drop_empty (n : nat) : drop n EmptyString = EmptyString.
Proof. now destruct n. Qed.

Lemma drop_plus (n m : nat) (s : string) : drop (n + m) s = drop m (drop n s).
Proof.
  revert s. induction n as [|n IH]; intros s; cbn; [reflexivity |].
  destruct s as [|c s]; [now rewrite drop_empty | apply IH].
Qed.

Lemma drop_beyond (n : nat) (s : string) :
  String.length s <= n -> drop n s = EmptyString.
Proof.
  revert s. induction n as [|n IH]; intros [|c s] H; cbn in *;
    try reflexivity; try lia.
  apply IH. lia.
Qed.

Lemma prefix_append (a b : string) : String.prefix a (a +:+ b) = true.
Proof.
  induction a as [|x a IH]; cbn; [now destruct b |].
  destruct (ascii_dec x x); [exact IH | contradiction].
Qed.

Lemma slice_from_end_append (a b : string) :
  slice_from_end (String.length b) (a +:+ b) = b.
Proof.
  unfold slice_from_end. rewrite length_append.
  replace (String.length a + String.length b - String.length b)
    with (String.length a) by lia.
  apply drop_append.
Qed.

Lemma in_occurrences (pat s : string) (i : nat) :
  In i (occurrences pat s) <->
  i <= String.length s /\ String.prefix pat (drop i s) = true.
Proof.
  unfold occurrences. rewrite filter_In, in_seq. intuition lia.
Qed.

(** When the pattern occurs once only, at the end of [pre], it occurs
    nowhere inside [pre]. *)
Lemma single_occurrence_before (pat pre post : string) (i : nat) :
  occurrences pat (pre +:+ pat +:+ post) = [String.length pre] ->
  i < String.length pre ->
  String.prefix pat (drop i (pre +:+ pat +:+ post)) = false.
Proof.
  intros Hocc Hi.
  destruct (String.prefix pat (drop i (pre +:+ pat +:+ post))) eqn:E;
    [| reflexivity].
  assert (In i (occurrences pat (pre +:+ pat +:+ post))) as Hin.
  { apply in_occurrences. split; [| exact E].
    rewrite length_append. lia. }
  rewrite Hocc in Hin. destruct Hin as [Hin | []]. lia.
Qed.

Lemma single_occurrence_after (pat pre post : string) (j : nat) :
  pat <> EmptyString ->
  occurrences pat (pre +:+ pat +:+ post) = [String.length pre] ->
  String.prefix pat (drop j post) = false.
Proof.
  intros Hpat Hocc.
  destruct (String.prefix pat (drop j post)) eqn:E; [| reflexivity].
  assert (j <= String.length post) as Hj.
  { destruct (le_lt_dec j (String.length post)) as [H | H]; [exact H |].
    exfalso. rewrite drop_beyond in E by lia.
    destruct pat; [congruence | discriminate]. }
  assert (In (String.length pre + (String.length pat + j))
             (occurrences pat (pre +:+ pat +:+ post))) as Hin.
  { apply in_occurrences. split.
    - rewrite !length_append. lia.
    - now rewrite !drop_plus, !drop_append. }
  rewrite Hocc in Hin. destruct Hin as [Hin | []].
  destruct pat; [congruence | cbn in Hin; lia].
Qed.

Lemma replace_first_occurrence (pat rep pre rest : string) :
  (forall i, i < String.length pre ->
             String.prefix pat (drop i (pre +:+ pat +:+ rest)) = false) ->
  replace pat rep (pre +:+ pat +:+ rest) = pre +:+ rep +:+ rest.
Proof.
  induction pre as [|c pre IH]; intros Hno.
  - cbn [String.append].
    destruct (pat +:+ rest) eqn:E.
    + assert (pat = EmptyString /\ rest = EmptyString) as [-> ->]
        by (destruct pat; [cbn in E; subst; tauto | discriminate]).
      cbn. now rewrite append_empty_r.
    + rewrite <- E. cbn [replace].
      unfold replace. rewrite E. fold replace. rewrite <- E.
      rewrite prefix_append, drop_append. reflexivity.
  - cbn [String.append replace].
    change (String c (pre +:+ pat +:+ rest))
      with (drop 0 (String c pre +:+ pat +:+ rest)).
    rewrite (Hno 0) by (cbn; lia). cbn [drop]. f_equal.
    apply IH. intros i Hi. apply (Hno (S i)). cbn. lia.
Qed.

Lemma split_aux_no_match (sep cur s : string) :
  (forall j, String.prefix sep (drop j s) = false) ->
  split_aux sep 0 cur s = [cur +:+ s].
Proof.
  revert cur. induction s as [|c s IH]; intros cur Hno.
  - cbn. now rewrite append_empty_r.
  - cbn [split_aux]. change (String c s) with (drop 0 (String c s)) at 1.
    rewrite (Hno 0). cbn [drop]. rewrite IH.
    + now rewrite append_assoc.
    + intros j. apply (Hno (S j)).
Qed.

Lemma split_aux_skip (sep cur x s : string) :
  split_aux sep (String.length x) cur (x +:+ s) = split_aux sep 0 cur s.
Proof.
  induction x as [|c x IH]; cbn; [reflexivity | exact IH].
Qed.

Lemma split_aux_first_match (sep cur pre post : string) :
  sep <> EmptyString ->
  (forall i, i < String.length pre ->
             String.prefix sep (drop i (pre +:+ sep +:+ post)) = false) ->
  split_aux sep 0 cur (pre +:+ sep +:+ post)
  = (cur +:+ pre) :: split_aux sep 0 EmptyString post.
Proof.
  intros Hsep. revert cur. induction pre as [|c pre IH]; intros cur Hno.
  - cbn [String.append]. rewrite append_empty_r.
    destruct sep as [|c sep']; [congruence |].
    cbn [String.append split_aux].
    change (String c (sep' +:+ post)) with (String c sep' +:+ post).
    rewrite prefix_append. cbn [String.length].
    replace (S (String.length sep') - 1) with (String.length sep') by lia.
    now rewrite split_aux_skip.
  - cbn [String.append split_aux].
    change (String c (pre +:+ sep +:+ post))
      with (drop 0 (String c pre +:+ sep +:+ post)).
    rewrite (Hno 0) by (cbn; lia). cbn [drop].
    rewrite IH.
    + now rewrite append_assoc.
    + intros i Hi. apply (Hno (S i)). cbn. lia.
Qed.

End StringFacts.

(** ** The source transform *)

Section TransformFacts.

Import JsString Transform.

#[local] Arguments String.append !_ _ / : simpl nomatch.

(** The text handed to the callback holds the rewritten reference. *)
Lemma transform_emits_rewrite (requireArg : string) :
  browserifyTransformNodeToBrowserRequire requireArg
  = if String.eqb (slice_from_end (String.length nodeRequire) requireArg)
                  nodeRequire
    then Some ("require('" +:+ rewrite requireArg +:+ "')")
    else None.
Proof.
  unfold browserifyTransformNodeToBrowserRequire, rewrite.
  now destruct (String.eqb _ _).
Qed.

(** A reference that does not end with the node suffix is left alone. *)
Lemma rewrite_without_suffix (requireArg : string) :
  slice_from_end (String.length nodeRequire) requireArg <> nodeRequire ->
  browserifyTransformNodeToBrowserRequire requireArg = None
  /\ rewrite requireArg = requireArg.
Proof.
  intros H. apply String.eqb_neq in H.
  unfold browserifyTransformNodeToBrowserRequire, rewrite.
  now rewrite H.
Qed.

(** When the suffix is the first occurrence of the node token, it is
    the suffix that is rewritten. *)
Lemma rewrite_single_suffix (p : string) :
  occurrences nodeRequire (p +:+ nodeRequire) = [String.length p] ->
  rewrite (p +:+ nodeRequire) = p +:+ browserRequire.
Proof.
  intros Hocc. unfold rewrite.
  rewrite slice_from_end_append, String.eqb_refl.
  rewrite <- (append_empty_r nodeRequire) in *.
  rewrite <- (append_empty_r browserRequire).
  apply replace_first_occurrence.
  intros i Hi. now apply single_occurrence_before.
Qed.

Lemma browser_suffix_is_not_node (p : string) :
  slice_from_end (String.length nodeRequire) (p +:+ browserRequire)
  <> nodeRequire.
Proof.
  change browserRequire with ("/br" +:+ "owser").
  rewrite <- append_assoc.
  change (String.length nodeRequire) with (String.length "owser").
  rewrite slice_from_end_append. discriminate.
Qed.

(** Rewriting is idempotent on the references whose only node token is
    the suffix, and on those without the suffix. *)
Lemma rewrite_idempotent_single_suffix (p : string) :
  occurrences nodeRequire (p +:+ nodeRequire) = [String.length p] ->
  rewrite (rewrite (p +:+ nodeRequire)) = rewrite (p +:+ nodeRequire).
Proof.
  intros Hocc. rewrite (rewrite_single_suffix p Hocc).
  apply rewrite_without_suffix, browser_suffix_is_not_node.
Qed.

Lemma rewrite_idempotent_without_suffix (requireArg : string) :
  slice_from_end (String.length nodeRequire) requireArg <> nodeRequire ->
  rewrite (rewrite requireArg) = rewrite requireArg.
Proof.
  intros H. destruct (rewrite_without_suffix requireArg H) as [_ ->].
  now apply rewrite_without_suffix.
Qed.

End TransformFacts.

(** C1: on a reference that ends with the node suffix and holds the
    node token earlier as well, the transform rewrites the earlier
    token: the emitted reference still ends with the node suffix, not
    with the browser suffix, and differs from the input before the
    suffix. *)
Theorem rewrite_misses_suffix_after_earlier_token :
  let requireArg := "../node_modules/lib/node" in
  JsString.slice_from_end 5 requireArg = Transform.nodeRequire
  /\ Transform.browserifyTransformNodeToBrowserRequire requireArg
     = Some "require('../browser_modules/lib/node')"
  /\ Transform.rewrite requireArg = "../browser_modules/lib/node"
  /\ JsString.slice_from_end 8 (Transform.rewrite requireArg)
     <> Transform.browserRequire
  /\ JsString.take 19 (Transform.rewrite requireArg)
     <> JsString.take 19 requireArg.
Proof.
  cbv zeta. repeat split; try reflexivity; vm_compute; discriminate.
Qed.

(** C2: on such a reference the second application rewrites the
    suffix the first one left, so two applications differ from one. *)
Theorem rewrite_twice_differs :
  Transform.rewrite "./node/node" = "./browser/node"
  /\ Transform.rewrite (Transform.rewrite "./node/node")
     = "./browser/browser"
  /\ Transform.rewrite (Transform.rewrite "./node/node")
     <> Transform.rewrite "./node/node".
Proof.
  repeat split; try reflexivity. vm_compute. discriminate.
Qed.

(** ** The version stamper *)

Section StamperFacts.

Import JsString Stamper.

#[local] Arguments String.append !_ _ / : simpl nomatch.

Variable semver_valid : string -> bool.
Variable utf8_roundtrip : string -> string.

Lemma occurrences_none (pat s : string) (j : nat) :
  pat <> EmptyString ->
  occurrences pat s = [] ->
  String.prefix pat (drop j s) = false.
Proof.
  intros Hpat Hocc.
  destruct (String.prefix pat (drop j s)) eqn:E; [| reflexivity].
  destruct (le_lt_dec j (String.length s)) as [Hj | Hj].
  - assert (In j (occurrences pat s)) as Hin
        by (apply in_occurrences; split; [exact Hj | exact E]).
    rewrite Hocc in Hin. destruct Hin.
  - rewrite drop_beyond in E by lia.
    destruct pat; [congruence | discriminate].
Qed.

Lemma split_nonempty_separator (sep s : string) :
  sep <> EmptyString -> split sep s = split_aux sep 0 EmptyString s.
Proof. intros H. destruct sep; [congruence | reflexivity]. Qed.

(** Without an occurrence of the pattern the contents stay as they
    are. *)
Lemma gulp_replace_absent (search replacement contents : string) :
  search <> EmptyString ->
  occurrences search contents = [] ->
  gulp_replace search replacement contents = contents.
Proof.
  intros Hs Hocc. unfold gulp_replace.
  rewrite split_nonempty_separator by exact Hs.
  rewrite split_aux_no_match; [reflexivity |].
  intros j. now apply occurrences_none.
Qed.

(** With a single occurrence, that occurrence is replaced. *)
Lemma gulp_replace_single (search replacement pre post : string) :
  search <> EmptyString ->
  occurrences search (pre +:+ search +:+ post) = [String.length pre] ->
  gulp_replace search replacement (pre +:+ search +:+ post)
  = pre +:+ replacement +:+ post.
Proof.
  intros Hs Hocc. unfold gulp_replace.
  rewrite split_nonempty_separator by exact Hs.
  rewrite split_aux_first_match; [| exact Hs |].
  - rewrite split_aux_no_match; [reflexivity |].
    intros j. now apply (single_occurrence_after search pre post).
  - intros i Hi. now apply single_occurrence_before.
Qed.

Lemma set_undefined_version (fs : gmap string string) :
  set semver_valid utf8_roundtrip undefined fs
  = (Some (Error ("Invalid version " +:+ quote +:+ "undefined" +:+ quote)),
     fs).
Proof. reflexivity. Qed.

Lemma set_missing_file (v : string) (fs : gmap string string) :
  semver_valid v = true ->
  fs !! versionFile = None ->
  set semver_valid utf8_roundtrip (str v) fs
  = (Some (FileNotFound versionFile), fs).
Proof. intros Hv Hf. unfold set, valid. now rewrite Hv, Hf. Qed.

End StamperFacts.

(** C3: with a version string that is not a valid semantic version the
    task ends with the error [Invalid version "v"], the exit code of
    the run is non-zero, and the source tree is the one it started
    from. *)
Theorem set_rejects_invalid_version (semver_valid : string -> bool)
    (utf8_roundtrip : string -> string)
    (v : string) (fs : gmap string string) :
  semver_valid v = false ->
  Stamper.set semver_valid utf8_roundtrip (Stamper.str v) fs
  = (Some (Stamper.Error
             ("Invalid version " +:+ Stamper.quote +:+ v
              +:+ Stamper.quote)),
     fs)
  /\ exit_code
       (set_outcome
          (fst (Stamper.set semver_valid utf8_roundtrip (Stamper.str v)
                  fs)))
     <> 0%Z.
Proof.
  intros Hv. unfold Stamper.set, Stamper.valid. rewrite Hv.
  split; [reflexivity | discriminate].
Qed.

Lemma set_rejects_invalid_version_witness :
  let fs : gmap string string :=
    {[ Stamper.versionFile := "export default '0.0.0-dev'";
       "package.json" := "{}" ]} in
  Stamper.set Stamper.core_semver_valid Stamper.ascii_roundtrip
    (Stamper.str "not-a-version") fs
  = (Some (Stamper.Error
             ("Invalid version " +:+ Stamper.quote +:+ "not-a-version"
              +:+ Stamper.quote)),
     fs)
  /\ exit_code
       (set_outcome
          (fst (Stamper.set Stamper.core_semver_valid
                  Stamper.ascii_roundtrip
                  (Stamper.str "not-a-version") fs)))
     <> 0%Z.
Proof.
  intros fs.
  apply (set_rejects_invalid_version Stamper.core_semver_valid
           Stamper.ascii_roundtrip "not-a-version" fs).
  reflexivity.
Defined.

Lemma placeholder_nonempty : Stamper.placeholder <> EmptyString.
Proof. discriminate. Qed.

(** On a tree that was stamped before, the task succeeds and rewrites
    nothing. *)
Lemma set_on_stamped_tree_rewrites_nothing :
  Stamper.set Stamper.core_semver_valid Stamper.ascii_roundtrip
    (Stamper.str "1.2.3") Stamper.stamped_tree
  = (None, Stamper.stamped_tree).
Proof.
  unfold Stamper.set, Stamper.stamped_tree. cbn [Stamper.valid negb].
  change (Stamper.core_semver_valid "1.2.3") with true. cbn [negb].
  rewrite lookup_singleton_eq.
  change (Stamper.gulp_replace _ _ _) with "export default '1.0.0'".
  now rewrite insert_singleton_eq.
Qed.

(** The pristine file, with its single placeholder, and a file that
    names the placeholder twice. *)
Example stamp_pristine :
  Stamper.gulp_replace Stamper.placeholder "1.2.3"
    "export default '0.0.0-dev'" = "export default '1.2.3'"
  /\ JsString.occurrences Stamper.placeholder "export default '0.0.0-dev'"
     = [16].
Proof. split; reflexivity. Qed.

Example stamp_two_occurrences :
  Stamper.gulp_replace Stamper.placeholder "1.2.3"
    "// 0.0.0-dev is replaced on release
export default '0.0.0-dev'"
  = "// 1.2.3 is replaced on release
export default '1.2.3'".
Proof. reflexivity. Qed.

(** ** Compositions with [series] only *)

Section SeriesFacts.

Lemma task_nested_ind (P : task -> Prop) :
  (forall a, P (Fn a)) ->
  (forall ts, Forall P ts -> P (Series ts)) ->
  (forall ts, Forall P ts -> P (Parallel ts)) ->
  forall t, P t.
Proof.
  intros Hfn Hseries Hpar. fix IH 1. intros [a | ts | ts].
  - apply Hfn.
  - apply Hseries. induction ts as [|t ts IHts]; constructor;
      [apply IH | exact IHts].
  - apply Hpar. induction ts as [|t ts IHts]; constructor;
      [apply IH | exact IHts].
Qed.

Lemma events_app (l1 l2 : list action) :
  events (l1 ++ l2)%list = (events l1 ++ events l2)%list.
Proof. unfold events. apply List.flat_map_app. Qed.

Lemma series_schedules (t : task) :
  uses_parallel t = false -> schedules t = [events (functions t)].
Proof.
  induction t as [a | ts IH | ts IH] using task_nested_ind; intros Hpar.
  - reflexivity.
  - cbn [schedules functions]. cbn [uses_parallel] in Hpar.
    induction ts as [|t ts IHts]; [reflexivity |].
    cbn [existsb] in Hpar. apply orb_false_iff in Hpar as [Ht Hts].
    inversion IH as [|? ? IHt IHrest]; subst.
    rewrite (IHt Ht), (IHts IHrest Hts). cbn [flat_map].
    rewrite events_app. reflexivity.
  - discriminate.
Qed.

Lemma run_events_cons (w : world) (a : action) (l : list action) :
  run_schedule w (events (a :: l))
  = match perform w a with
    | Completed =>
        (a :: fst (run_schedule w (events l)),
         snd (run_schedule w (events l)))
    | o => ([a], o)
    end.
Proof.
  cbn [events flat_map List.app run_schedule].
  fold (events l).
  destruct (perform w a); [| reflexivity ..].
  now destruct (run_schedule w (events l)).
Qed.

(** A list of functions run one after the other either completes as a
    whole or stops at the first function that does not complete. *)
Lemma run_events_cases (w : world) (l : list action) :
  (Forall (fun a => perform w a = Completed) l
   /\ run_schedule w (events l) = (l, Completed))
  \/ (exists before a after,
        l = (before ++ a :: after)%list
        /\ Forall (fun a => perform w a = Completed) before
        /\ perform w a <> Completed
        /\ run_schedule w (events l) = ((before ++ [a])%list, perform w a)).
Proof.
  induction l as [|a l IH].
  - left. split; [constructor | reflexivity].
  - rewrite run_events_cons. destruct (perform w a) eqn:Ea.
    + destruct IH as [[Hall Hrun] | (before & b & after & -> & Hall & Hb & Hrun)].
      * left. rewrite Hrun. split; [constructor; assumption | reflexivity].
      * right. exists (a :: before), b, after. rewrite Hrun.
        repeat split; [constructor; assumption | exact Hb].
    + right. exists [], a, l. rewrite Ea.
      repeat split; [constructor | discriminate].
    + right. exists [], a, l. rewrite Ea.
      repeat split; [constructor | discriminate].
Qed.

End SeriesFacts.

(** X1: a task composed without [parallel] admits exactly one order:
    its functions in the order of the script, each one completed
    before the next is started; so it has exactly one run in every
    world. *)
Theorem series_admits_one_order (w : world) (t : task) :
  uses_parallel t = false ->
  schedules t = [events (functions t)]
  /\ runs w t = [run_schedule w (events (functions t))].
Proof.
  intros Hpar. unfold runs. rewrite (series_schedules t Hpar).
  split; reflexivity.
Qed.

Lemma series_admits_one_order_witness :
  let w := {| stream_ok := fun _ => true; npm_install_exit := 0;
              karma_failed := fun _ => false; ts_errors := false |} in
  schedules test_browser = [events (functions test_browser)]
  /\ runs w test_browser
     = [run_schedule w (events (functions test_browser))].
Proof.
  intros w. apply (series_admits_one_order w test_browser). reflexivity.
Defined.

(** X2: a run of a task composed without [parallel] starts a prefix of
    the task's functions; it completes exactly when every function of
    the task completes, it has then started all of them, and its exit
    code is zero exactly when it completes. *)
Theorem series_run_completes_iff (w : world) (t : task)
    (r : list action * outcome) :
  uses_parallel t = false ->
  In r (runs w t) ->
  fst r `prefix_of` functions t
  /\ (snd r = Completed <->
      Forall (fun a => perform w a = Completed) (functions t))
  /\ (snd r = Completed -> fst r = functions t)
  /\ (exit_code (snd r) = 0%Z <-> snd r = Completed).
Proof.
  intros Hpar Hr. unfold runs in Hr.
  rewrite (series_schedules t Hpar) in Hr.
  destruct Hr as [<- | []].
  destruct (run_events_cases w (functions t))
    as [[Hall Hrun] | (before & a & after & Hl & Hall & Ha & Hrun)];
    rewrite Hrun; cbn [fst snd].
  - repeat split; try tauto. exists []. now rewrite List.app_nil_r.
  - repeat split.
    + exists after. rewrite Hl, <- List.app_assoc. reflexivity.
    + intros H. contradiction.
    + intros H. rewrite Hl in H. apply List.Forall_app in H as [_ H].
      inversion H; subst. contradiction.
    + intros H. contradiction.
    + intros H. exfalso. now apply (exit_code_perform w a).
    + intros H. contradiction.
Qed.

Lemma series_run_completes_iff_witness :
  let w := {| stream_ok := fun _ => true; npm_install_exit := 0;
              karma_failed := fun _ => false; ts_errors := false |} in
  let r := ([nodejs_fn; build_browser_test_fn; build_browser_fn],
            Completed) in
  fst r `prefix_of` functions all
  /\ (snd r = Completed <->
      Forall (fun a => perform w a = Completed) (functions all))
  /\ (snd r = Completed -> fst r = functions all)
  /\ (exit_code (snd r) = 0%Z <-> snd r = Completed).
Proof.
  intros w r. apply (series_run_completes_iff w all r).
  - reflexivity.
  - left. reflexivity.
Defined.

(** X3: a run of a task composed without [parallel] that does not
    complete stops at the first function that does not complete: the
    functions before it completed, it is the last one started, and the
    run ends the way that function ends. *)
Theorem series_run_fails_fast (w : world) (t : task)
    (r : list action * outcome) :
  uses_parallel t = false ->
  In r (runs w t) ->
  snd r <> Completed ->
  exists before a after,
    functions t = (before ++ a :: after)%list
    /\ fst r = (before ++ [a])%list
    /\ Forall (fun b => perform w b = Completed) before
    /\ perform w a = snd r.
Proof.
  intros Hpar Hr Hfail. unfold runs in Hr.
  rewrite (series_schedules t Hpar) in Hr.
  destruct Hr as [<- | []].
  destruct (run_events_cases w (functions t))
    as [[Hall Hrun] | (before & a & after & Hl & Hall & Ha & Hrun)];
    rewrite Hrun in *; cbn [fst snd] in *.
  - contradiction.
  - exists before, a, after. repeat split; assumption.
Qed.

Lemma series_run_fails_fast_witness :
  let w := {| stream_ok := fun _ => true; npm_install_exit := 1;
              karma_failed := fun _ => false; ts_errors := false |} in
  let r := ([ts_declaration_tests_fn; nodejs_fn; sandbox_install_fn],
            Errored) in
  exists before a after,
    functions test = (before ++ a :: after)%list
    /\ fst r = (before ++ [a])%list
    /\ Forall (fun b => perform w b = Completed) before
    /\ perform w a = snd r.
Proof.
  intros w r. apply (series_run_fails_fast w test r).
  - reflexivity.
  - left. reflexivity.
  - discriminate.
Defined.

(** X4: in every run of [test-browser] the engine is launched exactly
    when the node build completes: the two bundling functions signal
    completion at once, so a bundle that fails or is not yet written
    does not keep the engine from being launched. *)
Theorem karma_starts_iff_node_build (w : world)
    (r : list action * outcome) :
  In r (runs w test_browser) ->
  (In (runKarma firefox) (fst r) <-> stream_ok w nodejs_fn = true).
Proof.
  intros Hr. unfold_perform. destruct Hr as [<- | []].
  destruct (stream_ok w nodejs_fn); destruct (karma_failed w firefox);
    cbn; split; intros H;
    first [reflexivity | discriminate H | pick_true
          | exfalso; intuition congruence].
Qed.

Lemma karma_starts_iff_node_build_witness :
  let w := {| stream_ok := fun a => bool_decide (a = nodejs_fn);
              npm_install_exit := 0;
              karma_failed := fun _ => false; ts_errors := false |} in
  let r := ([nodejs_fn; build_browser_test_fn; build_browser_fn;
             runKarma firefox], Completed) in
  In r (runs w test_browser)
  /\ (In (runKarma firefox) (fst r) <-> stream_ok w nodejs_fn = true).
Proof.
  intros w r.
  assert (In r (runs w test_browser)) as Hr by (left; reflexivity).
  split; [exact Hr |].
  apply (karma_starts_iff_node_build w r Hr).
Defined.

(** X5: a run of [test] that completes has started the node build
    twice, once below [test-nodejs] and once below [test-browser]. *)
Theorem test_builds_node_twice (w : world) (r : list action * outcome) :
  In r (runs w test) ->
  snd r = Completed ->
  count_occ action_eq_dec (fst r) nodejs_fn = 2.
Proof.
  intros Hr Hdone.
  assert (uses_parallel test = false) as Hpar by reflexivity.
  unfold runs in Hr. rewrite (series_schedules test Hpar) in Hr.
  destruct Hr as [<- | []].
  destruct (run_events_cases w (functions test))
    as [[_ Hrun] | (before & a & after & _ & _ & Ha & Hrun)];
    rewrite Hrun in *; cbn [fst snd] in *.
  - reflexivity.
  - contradiction.
Qed.

Lemma test_builds_node_twice_witness :
  let w := {| stream_ok := fun _ => true; npm_install_exit := 0;
              karma_failed := fun _ => false; ts_errors := false |} in
  count_occ action_eq_dec (functions test) nodejs_fn = 2.
Proof.
  intros w.
  apply (test_builds_node_twice w (functions test, Completed)).
  - left. reflexivity.
  - reflexivity.
Defined.

(** X6: when the declaration check emits an error, every registered
    task that contains the check ends the process with code 1 as soon
    as the check has run, with nothing else started. *)
Theorem declaration_errors_exit_first (w : world) (name : string)
    (t : task) :
  ts_errors w = true ->
  In (name, t) registry ->
  In ts_declaration_tests_fn (functions t) ->
  runs w t = [([ts_declaration_tests_fn], Exited 1)].
Proof.
  intros Hts Hreg Hin.
  unfold registry in Hreg. cbn [In] in Hreg.
  repeat match type of Hreg with
    | _ \/ _ => destruct Hreg as [Hreg | Hreg]
    end;
    try contradiction; injection Hreg as _ <-;
    try (exfalso; cbn in Hin; intuition congruence);
    unfold_perform; rewrite Hts; reflexivity.
Qed.

Lemma declaration_errors_exit_first_witness :
  let w := {| stream_ok := fun _ => true; npm_install_exit := 0;
              karma_failed := fun _ => false; ts_errors := true |} in
  runs w default = [([ts_declaration_tests_fn], Exited 1)].
Proof.
  intros w.
  apply (declaration_errors_exit_first w "default" default).
  - reflexivity.
  - cbn. tauto.
  - cbn. tauto.
Defined.

(** X7: the configuration file [runKarma] hands to the launcher names
    its engine: two engines share a configuration file only when they
    are the same engine. *)
Theorem configFile_names_engine (b1 b2 : engine) :
  String.eqb (configFile b1) (configFile b2) = bool_decide (b1 = b2).
Proof. destruct b1, b2; reflexivity. Qed.

(** ** More on the string primitives *)

Section MoreStringFacts.

Import JsString.

#[local] Arguments String.append !_ _ / : simpl nomatch.

Lemma take_drop (n : nat) (s : string) : take n s +:+ drop n s = s.
Proof.
  revert s. induction n as [|n IH]; intros [|c s]; cbn; try reflexivity.
  now rewrite IH.
Qed.

Lemma length_take (n : nat) (s : string) :
  n <= String.length s -> String.length (take n s) = n.
Proof.
  revert s. induction n as [|n IH]; intros [|c s] H; cbn in *;
    try reflexivity; try lia.
  rewrite IH; lia.
Qed.

Lemma length_drop (n : nat) (s : string) :
  String.length (drop n s) = String.length s - n.
Proof.
  revert s. induction n as [|n IH]; intros [|c s]; cbn;
    try reflexivity; try lia.
  apply IH.
Qed.

Lemma prefix_decompose (a s : string) :
  String.prefix a s = true -> s = a +:+ drop (String.length a) s.
Proof.
  revert s. induction a as [|x a IH]; intros s H; cbn in *.
  - now destruct s.
  - destruct s as [|y s]; [discriminate |]. cbn in H.
    destruct (ascii_dec x y) as [-> |]; [| discriminate].
    cbn. f_equal. now apply IH.
Qed.

Lemma prefix_length (a s : string) :
  String.prefix a s = true -> String.length a <= String.length s.
Proof.
  intros H. rewrite (prefix_decompose a s H), length_append. lia.
Qed.

Lemma prefix_self (a : string) : String.prefix a a = true.
Proof.
  rewrite <- (append_empty_r a) at 2. apply prefix_append.
Qed.

Lemma filter_seq_head (f : nat -> bool) (a n i : nat) (rest : list nat) :
  List.filter f (List.seq a n) = i :: rest ->
  f i = true /\ a <= i < a + n /\ forall j, a <= j < i -> f j = false.
Proof.
  revert a. induction n as [|n IH]; intros a H; [discriminate |].
  cbn [List.seq List.filter] in H. destruct (f a) eqn:Ea.
  - injection H as <- _. repeat split; [exact Ea | lia | lia |].
    intros j Hj. lia.
  - destruct (IH (S a) H) as (Hi & Hrange & Hmin).
    repeat split; [exact Hi | lia | lia |].
    intros j Hj. destruct (Nat.eq_dec j a) as [-> |]; [exact Ea |].
    apply Hmin. lia.
Qed.

(** The first listed occurrence is the leftmost one. *)
Lemma occurrences_head (pat s : string) (i : nat) (rest : list nat) :
  occurrences pat s = i :: rest ->
  String.prefix pat (drop i s) = true
  /\ i <= String.length s
  /\ forall j, j < i -> String.prefix pat (drop j s) = false.
Proof.
  intros H. unfold occurrences in H.
  apply filter_seq_head in H as (Hi & Hrange & Hmin).
  repeat split; [exact Hi | lia |].
  intros j Hj. apply Hmin. lia.
Qed.

(** [replace] rewrites the leftmost occurrence and nothing else. *)
Lemma replace_leftmost (pat rep s : string) (i : nat) (rest : list nat) :
  occurrences pat s = i :: rest ->
  replace pat rep s
  = take i s +:+ rep +:+ drop (i + String.length pat) s.
Proof.
  intros H. destruct (occurrences_head pat s i rest H) as (Hi & Hle & Hmin).
  pose proof (prefix_decompose pat (drop i s) Hi) as Hdec.
  rewrite <- drop_plus in Hdec.
  assert (s = take i s +:+ pat +:+ drop (i + String.length pat) s) as Hs.
  { rewrite <- Hdec. symmetry. apply take_drop. }
  rewrite Hs at 1. apply replace_first_occurrence.
  intros j Hj. rewrite <- Hs. apply Hmin.
  rewrite length_take in Hj by exact Hle. exact Hj.
Qed.

Lemma suffix_occurs (suffix s : string) :
  slice_from_end (String.length suffix) s = suffix ->
  In (String.length s - String.length suffix) (occurrences suffix s)
  /\ String.length suffix <= String.length s.
Proof.
  intros H. unfold slice_from_end in H. split.
  - apply in_occurrences. split; [lia |]. rewrite H. apply prefix_self.
  - pose proof (length_drop (String.length s - String.length suffix) s)
      as Hlen.
    rewrite H in Hlen. lia.
Qed.

Lemma join_cons (glue x : string) (l : list string) :
  l <> [] -> join glue (x :: l) = x +:+ glue +:+ join glue l.
Proof. destruct l; [congruence | reflexivity]. Qed.

Lemma split_aux_nonempty (sep cur s : string) (k : nat) :
  split_aux sep k cur s <> [].
Proof.
  revert k cur. induction s as [|c s IH]; intros k cur; cbn [split_aux];
    [discriminate |].
  destruct k; [| apply IH].
  destruct (String.prefix sep (String c s)); [discriminate | apply IH].
Qed.


End MoreStringFacts.

(** ** More on the source transform *)

Lemma rewrite_leftmost_form (requireArg : string) :
  JsString.slice_from_end (String.length Transform.nodeRequire) requireArg
  = Transform.nodeRequire ->
  exists i rest,
    JsString.occurrences Transform.nodeRequire requireArg = i :: rest
    /\ Transform.rewrite requireArg
       = JsString.take i requireArg +:+ Transform.browserRequire
         +:+ JsString.drop (i + 5) requireArg.
Proof.
  intros Hends. destruct (suffix_occurs _ _ Hends) as [Hin _].
  destruct (JsString.occurrences Transform.nodeRequire requireArg)
    as [|i rest] eqn:Hocc; [destruct Hin |].
  exists i, rest. split; [reflexivity |].
  unfold Transform.rewrite. rewrite Hends, String.eqb_refl.
  apply (replace_leftmost _ _ _ _ _ Hocc).
Qed.

(** X8: on a reference that ends with the node suffix, the transform
    rewrites the leftmost node token of the reference, wherever it is,
    and keeps every other character; the emitted call holds that
    reference. *)
Theorem rewrite_replaces_leftmost (requireArg : string) :
  JsString.slice_from_end (String.length Transform.nodeRequire) requireArg
  = Transform.nodeRequire ->
  exists i rest,
    JsString.occurrences Transform.nodeRequire requireArg = i :: rest
    /\ Transform.rewrite requireArg
       = JsString.take i requireArg +:+ Transform.browserRequire
         +:+ JsString.drop (i + 5) requireArg
    /\ Transform.browserifyTransformNodeToBrowserRequire requireArg
       = Some ("require('" +:+ Transform.rewrite requireArg +:+ "')").
Proof.
  intros Hends.
  destruct (rewrite_leftmost_form requireArg Hends)
    as (i & rest & Hocc & Hrw).
  exists i, rest. repeat split; [exact Hocc | exact Hrw |].
  rewrite transform_emits_rewrite.
  now rewrite Hends, String.eqb_refl.
Qed.

Lemma rewrite_replaces_leftmost_witness :
  exists i rest,
    JsString.occurrences Transform.nodeRequire "./node/util/node"
    = i :: rest
    /\ Transform.rewrite "./node/util/node"
       = JsString.take i "./node/util/node" +:+ Transform.browserRequire
         +:+ JsString.drop (i + 5) "./node/util/node"
    /\ Transform.browserifyTransformNodeToBrowserRequire "./node/util/node"
       = Some ("require('" +:+ Transform.rewrite "./node/util/node"
               +:+ "')").
Proof. apply (rewrite_replaces_leftmost "./node/util/node"). reflexivity. Defined.

(** X9: when the node token occurs in a reference only as its suffix,
    the emitted call names the same path with the browser suffix in its
    place. *)
Theorem transform_sole_suffix (p : string) :
  JsString.occurrences Transform.nodeRequire (p +:+ Transform.nodeRequire)
  = [String.length p] ->
  Transform.browserifyTransformNodeToBrowserRequire
    (p +:+ Transform.nodeRequire)
  = Some ("require('" +:+ (p +:+ Transform.browserRequire) +:+ "')").
Proof.
  intros Hocc. rewrite transform_emits_rewrite.
  rewrite slice_from_end_append, String.eqb_refl.
  now rewrite (rewrite_single_suffix p Hocc).
Qed.

Lemma transform_sole_suffix_witness :
  Transform.browserifyTransformNodeToBrowserRequire
    ("./internal" +:+ Transform.nodeRequire)
  = Some ("require('" +:+ ("./internal" +:+ Transform.browserRequire)
          +:+ "')").
Proof. apply (transform_sole_suffix "./internal"). reflexivity. Defined.

(** X10: a reference shorter than the node suffix, the empty one
    included, is left alone: [slice] with a negative start beyond the
    beginning yields the whole reference. *)
Theorem transform_short_reference (requireArg : string) :
  String.length requireArg < String.length Transform.nodeRequire ->
  Transform.browserifyTransformNodeToBrowserRequire requireArg = None
  /\ Transform.rewrite requireArg = requireArg.
Proof.
  intros Hlen. apply rewrite_without_suffix.
  unfold JsString.slice_from_end.
  replace (String.length requireArg - String.length Transform.nodeRequire)
    with 0 by lia.
  cbn [JsString.drop]. intros ->. cbn in Hlen. lia.
Qed.

Lemma transform_short_reference_witness :
  Transform.browserifyTransformNodeToBrowserRequire "fs" = None
  /\ Transform.rewrite "fs" = "fs".
Proof. apply (transform_short_reference "fs"). cbn. lia. Defined.

(** X11: a rewritten reference is three characters longer than the
    reference it comes from. *)
Theorem rewrite_length (requireArg : string) :
  JsString.slice_from_end (String.length Transform.nodeRequire) requireArg
  = Transform.nodeRequire ->
  String.length (Transform.rewrite requireArg)
  = String.length requireArg + 3.
Proof.
  intros Hends.
  destruct (rewrite_leftmost_form requireArg Hends)
    as (i & rest & Hocc & ->).
  destruct (occurrences_head _ _ _ _ Hocc) as (Hi & Hle & _).
  apply prefix_length in Hi. rewrite length_drop in Hi. cbn in Hi.
  rewrite !length_append, length_take, length_drop by exact Hle.
  cbn. lia.
Qed.

Lemma rewrite_length_witness :
  String.length (Transform.rewrite "./node/node")
  = String.length "./node/node" + 3.
Proof. apply (rewrite_length "./node/node"). reflexivity. Defined.

(** X12: on a reference that holds the node token at most once,
    rewriting twice gives the same reference as rewriting once. *)
Theorem rewrite_idempotent_at_most_one (requireArg : string) :
  length (JsString.occurrences Transform.nodeRequire requireArg) <= 1 ->
  Transform.rewrite (Transform.rewrite requireArg)
  = Transform.rewrite requireArg.
Proof.
  intros Hone.
  destruct (String.eqb
              (JsString.slice_from_end
                 (String.length Transform.nodeRequire) requireArg)
              Transform.nodeRequire) eqn:E.
  - apply String.eqb_eq in E.
    destruct (suffix_occurs _ _ E) as [Hin Hlen].
    destruct (rewrite_leftmost_form requireArg E)
      as (i & rest & Hocc & ->).
    rewrite Hocc in Hone, Hin. destruct rest; [| cbn in Hone; lia].
    destruct Hin as [Hi | []]. cbn in Hlen, Hi.
    rewrite (drop_beyond (i + 5)) by lia.
    rewrite append_empty_r.
    apply rewrite_without_suffix, browser_suffix_is_not_node.
  - apply rewrite_idempotent_without_suffix.
    now apply String.eqb_neq.
Qed.

Lemma rewrite_idempotent_at_most_one_witness :
  Transform.rewrite (Transform.rewrite "../internal/node")
  = Transform.rewrite "../internal/node".
Proof.
  apply (rewrite_idempotent_at_most_one "../internal/node").
  vm_compute. lia.
Defined.

(** ** More on the version stamper *)

(** X13: the task succeeds exactly when the version is a string that
    [semver.valid] accepts and the designated file exists; a missing
    [--version] never succeeds. *)
Theorem set_succeeds_iff (semver_valid : string -> bool)
    (utf8_roundtrip : string -> string)
    (version : Stamper.js_value) (fs : gmap string string) :
  fst (Stamper.set semver_valid utf8_roundtrip version fs) = None
  <-> Stamper.valid semver_valid version = true
      /\ is_Some (fs !! Stamper.versionFile).
Proof.
  unfold Stamper.set.
  destruct (Stamper.valid semver_valid version); cbn [negb fst].
  - destruct (fs !! Stamper.versionFile) as [contents|]; cbn [fst].
    + split; [intros _; split; [reflexivity | now exists contents] |].
      reflexivity.
    + split; [discriminate | intros [_ [x Hx]]; discriminate].
  - split; [discriminate | intros [H _]; discriminate].
Qed.

(** X14: whatever the version and the tree, the task neither creates
    nor deletes a file, and when it ends with an error it leaves the
    tree as it found it. *)
Theorem set_keeps_paths (semver_valid : string -> bool)
    (utf8_roundtrip : string -> string)
    (version : Stamper.js_value) (fs : gmap string string) :
  dom (snd (Stamper.set semver_valid utf8_roundtrip version fs)) = dom fs
  /\ (fst (Stamper.set semver_valid utf8_roundtrip version fs) = None
      \/ snd (Stamper.set semver_valid utf8_roundtrip version fs) = fs).
Proof.
  unfold Stamper.set.
  destruct (Stamper.valid semver_valid version); cbn [negb fst snd].
  - destruct (fs !! Stamper.versionFile) as [contents|] eqn:Hfile;
      cbn [fst snd].
    + split; [| left; reflexivity].
      rewrite dom_insert_L.
      assert (Stamper.versionFile ∈ dom fs) as Hdom
        by (apply elem_of_dom; now exists contents).
      apply set_eq. intros p. rewrite elem_of_union, elem_of_singleton.
      split; [intros [-> | Hp]; assumption | intros Hp; now right].
    + split; [reflexivity | right; reflexivity].
  - split; [reflexivity | right; reflexivity].
Qed.

Section ReplaceFacts.

Import JsString Stamper.

#[local] Arguments String.append !_ _ / : simpl nomatch.


End ReplaceFacts.



(** X16: gulp-replace works from left to right: the leftmost
    occurrence of the pattern is replaced and the rest of the contents
    is treated in the same way, whatever the replacement holds. *)
Theorem gulp_replace_leftmost (search replacement pre post : string) :
  search <> EmptyString ->
  (forall i, i < String.length pre ->
             String.prefix search
               (JsString.drop i (pre +:+ search +:+ post)) = false) ->
  Stamper.gulp_replace search replacement (pre +:+ search +:+ post)
  = pre +:+ replacement
    +:+ Stamper.gulp_replace search replacement post.
Proof.
  intros Hsep Hno. unfold Stamper.gulp_replace.
  rewrite !split_nonempty_separator by exact Hsep.
  rewrite split_aux_first_match by assumption.
  rewrite join_cons by apply split_aux_nonempty.
  reflexivity.
Qed.

Lemma gulp_replace_leftmost_witness :
  Stamper.gulp_replace "0.0.0-dev" "2.0.0"
    ("v = '" +:+ "0.0.0-dev" +:+ "'; w = '0.0.0-dev'")
  = "v = '" +:+ "2.0.0"
    +:+ Stamper.gulp_replace "0.0.0-dev" "2.0.0" "'; w = '0.0.0-dev'".
Proof.
  apply (gulp_replace_leftmost "0.0.0-dev" "2.0.0" "v = '"
           "'; w = '0.0.0-dev'").
  - discriminate.
  - intros i Hi. cbn in Hi.
    do 5 (destruct i as [|i]; [reflexivity |]). lia.
Defined.

(** ** The sandbox *)

Section SandboxFacts.

Import Sandbox.

Lemma emptyDirSync_lookup (dir p : string) (fs emptied : gmap string string) :
  emptyDirSync dir fs = Some emptied ->
  emptied !! p = if inside dir p then None else fs !! p.
Proof.
  unfold emptyDirSync. destruct (existsb _ _); [discriminate |].
  intros [= <-]. destruct (inside dir p) eqn:E.
  - apply map_lookup_filter_None_2. right. intros x _ H.
    cbn [fst] in H. congruence.
  - destruct (fs !! p) as [x|] eqn:Hp.
    + apply map_lookup_filter_Some_2; [exact Hp | exact E].
    + apply map_lookup_filter_None_2. left. exact Hp.
Qed.

Lemma emptyDirSync_testDir_throws (fs : gmap string string) :
  emptyDirSync testDir fs = None
  <-> is_Some (fs !! "build") \/ is_Some (fs !! "build/sandbox").
Proof.
  unfold emptyDirSync.
  change (ancestors testDir) with ["build"; "build/sandbox"].
  cbn [existsb].
  destruct (bool_decide (is_Some (fs !! "build"))) eqn:E1;
    destruct (bool_decide (is_Some (fs !! "build/sandbox"))) eqn:E2;
    cbn [orb];
    try apply bool_decide_eq_true in E1;
    try apply bool_decide_eq_true in E2;
    try apply bool_decide_eq_false in E1;
    try apply bool_decide_eq_false in E2;
    split; try tauto; try discriminate.
Qed.

End SandboxFacts.

Lemma prepare_lookup (dirname p : string)
    (fs fs' : gmap string string) :
  Sandbox.prepare dirname fs = Some fs' ->
  fs' !! p
  = if String.eqb p "build/sandbox/package.json"
    then Some (Sandbox.packageJsonContent dirname)
    else if Sandbox.inside Sandbox.testDir p then None else fs !! p.
Proof.
  unfold Sandbox.prepare.
  destruct (Sandbox.emptyDirSync Sandbox.testDir fs) as [emptied|] eqn:E;
    [| discriminate].
  intros [= <-].
  change (Sandbox.testDir +:+ "/package.json")
    with "build/sandbox/package.json".
  destruct (String.eqb_spec p "build/sandbox/package.json") as [-> | Hne].
  - apply lookup_insert_eq.
  - rewrite lookup_insert_ne by congruence.
    apply (emptyDirSync_lookup _ _ _ _ E).
Qed.

(** X17: when the sandbox can be emptied, the tree the function leaves
    for the installation holds the package descriptor at
    [build/sandbox/package.json], nothing else below [build/sandbox],
    and every file outside the sandbox as it was. *)
Theorem prepare_result (dirname : string) (fs fs' : gmap string string) :
  Sandbox.prepare dirname fs = Some fs' ->
  fs' !! "build/sandbox/package.json"
  = Some (Sandbox.packageJsonContent dirname)
  /\ (forall p, Sandbox.inside Sandbox.testDir p = true ->
                p <> "build/sandbox/package.json" -> fs' !! p = None)
  /\ (forall p, Sandbox.inside Sandbox.testDir p = false ->
                fs' !! p = fs !! p).
Proof.
  intros Hfs. repeat split.
  - now rewrite (prepare_lookup dirname _ fs fs' Hfs).
  - intros p Hin Hne. rewrite (prepare_lookup dirname p fs fs' Hfs), Hin.
    apply String.eqb_neq in Hne. now rewrite Hne.
  - intros p Hout. rewrite (prepare_lookup dirname p fs fs' Hfs), Hout.
    destruct (String.eqb_spec p "build/sandbox/package.json") as [-> |];
      [discriminate Hout | reflexivity].
Qed.

Lemma prepare_result_witness :
  let fs : gmap string string :=
    {[ "build/sandbox/node_modules/old/index.js" := "stale";
       "build/sandboxes.txt" := "kept" ]} in
  let fs' : gmap string string :=
    {[ "build/sandbox/package.json" := Sandbox.packageJsonContent "/repo";
       "build/sandboxes.txt" := "kept" ]} in
  fs' !! "build/sandbox/package.json"
  = Some (Sandbox.packageJsonContent "/repo")
  /\ (forall p, Sandbox.inside Sandbox.testDir p = true ->
                p <> "build/sandbox/package.json" -> fs' !! p = None)
  /\ (forall p, Sandbox.inside Sandbox.testDir p = false ->
                fs' !! p = fs !! p).
Proof.
  intros fs fs'. apply (prepare_result "/repo" fs fs').
  vm_compute. reflexivity.
Defined.

(** X18: the function throws before anything is written exactly when
    [build] or [build/sandbox] is a file. *)
Theorem prepare_throws_iff (dirname : string) (fs : gmap string string) :
  Sandbox.prepare dirname fs = None
  <-> is_Some (fs !! "build") \/ is_Some (fs !! "build/sandbox").
Proof.
  rewrite <- emptyDirSync_testDir_throws. unfold Sandbox.prepare.
  destruct (Sandbox.emptyDirSync Sandbox.testDir fs);
    split; congruence.
Qed.

(** X19: what the sandbox held before does not matter: preparing the
    tree the function left gives that tree again. *)
Theorem prepare_idempotent (dirname : string)
    (fs fs' : gmap string string) :
  Sandbox.prepare dirname fs = Some fs' ->
  Sandbox.prepare dirname fs' = Some fs'.
Proof.
  intros Hfs.
  assert (Sandbox.emptyDirSync Sandbox.testDir fs <> None) as Hok.
  { unfold Sandbox.prepare in Hfs.
    destruct (Sandbox.emptyDirSync Sandbox.testDir fs); congruence. }
  rewrite emptyDirSync_testDir_throws in Hok.
  destruct (Sandbox.prepare dirname fs') as [fs''|] eqn:Hfs'.
  - f_equal. apply map_eq. intros p.
    rewrite (prepare_lookup dirname p fs' fs'' Hfs').
    rewrite (prepare_lookup dirname p fs fs' Hfs).
    destruct (String.eqb p "build/sandbox/package.json"); [reflexivity |].
    now destruct (Sandbox.inside Sandbox.testDir p).
  - exfalso. apply Hok.
    unfold Sandbox.prepare in Hfs'.
    destruct (Sandbox.emptyDirSync Sandbox.testDir fs') eqn:He;
      [discriminate |].
    apply emptyDirSync_testDir_throws in He.
    rewrite (prepare_lookup dirname "build" fs fs' Hfs) in He.
    rewrite (prepare_lookup dirname "build/sandbox" fs fs' Hfs) in He.
    exact He.
Qed.

Lemma prepare_idempotent_witness :
  let fs' : gmap string string :=
    {[ "build/sandbox/package.json" := Sandbox.packageJsonContent "/repo";
       "src/index.js" := "export default 1" ]} in
  Sandbox.prepare "/repo" fs' = Some fs'.
Proof.
  intros fs'.
  apply (prepare_idempotent "/repo"
           {[ "build/sandbox/yarn.lock" := "old";
              "src/index.js" := "export default 1" ]} fs').
  vm_compute. reflexivity.
Defined.



(** ** The test bundle *)

Lemma collect_all (testFiles : list string)
    (files : list BrowserTest.vinyl) :
  BrowserTest.through_obj BrowserTest.collect BrowserTest.collect_flush
    testFiles files
  = [(testFiles ++ List.map BrowserTest.path files)%list].
Proof.
  revert testFiles. induction files as [|f files IH]; intros testFiles.
  - cbn. now rewrite List.app_nil_r.
  - cbn [BrowserTest.through_obj BrowserTest.collect List.app List.map].
    rewrite IH, <- List.app_assoc. reflexivity.
Qed.

(** X21: whatever files the stream delivers, none included, the
    function calls the bundler exactly once, with the paths of all the
    files as entries in the order of the stream, and writes the bundle
    to [build/browser/neo4j-web.test.js]. *)
Theorem build_browser_test_one_bundle (files : list BrowserTest.vinyl) :
  BrowserTest.build_browser_test files
  = [{| BrowserTest.entries := List.map BrowserTest.path files;
        BrowserTest.debug := true;
        BrowserTest.destination := "build/browser/neo4j-web.test.js" |}].
Proof.
  unfold BrowserTest.build_browser_test. rewrite collect_all.
  reflexivity.
Qed.

(** ** Every occurrence of the placeholder *)

Section EveryOccurrence.

Import JsString Stamper.

#[local] Arguments String.append !_ _ / : simpl nomatch.

Lemma take_append (a b : string) : take (String.length a) (a +:+ b) = a.
Proof. induction a as [|x a IH]; cbn; [now destruct b | now rewrite IH]. Qed.

Lemma drop_append_le (i : nat) (x rest : string) :
  i <= String.length x -> drop i (x +:+ rest) = drop i x +:+ rest.
Proof.
  revert x. induction i as [|i IH]; intros [|c x] H; cbn in *;
    try reflexivity; try lia.
  apply IH. lia.
Qed.

(** Whether a pattern starts a string depends on as many characters
    only as the pattern has. *)
Lemma prefix_window (p x rest : string) :
  String.length p <= String.length x ->
  String.prefix p (x +:+ rest) = String.prefix p x.
Proof.
  revert x. induction p as [|a p IH]; intros x H.
  - now destruct x, rest.
  - destruct x as [|b x]; [cbn in H; lia |]. cbn.
    destruct (ascii_dec a b); [| reflexivity].
    apply IH. cbn in H. lia.
Qed.

(** A chunk that holds the pattern only where the pattern is appended
    holds it nowhere earlier, whatever follows. *)
Lemma chunk_no_early (pat c rest : string) (i : nat) :
  occurrences pat (c +:+ pat) = [String.length c] ->
  i < String.length c ->
  String.prefix pat (drop i (c +:+ pat +:+ rest)) = false.
Proof.
  intros Hocc Hi.
  rewrite <- (append_empty_r pat) in Hocc at 2.
  pose proof (single_occurrence_before pat c EmptyString i Hocc Hi) as H.
  rewrite append_empty_r in H.
  rewrite <- append_assoc.
  rewrite drop_append_le by (rewrite length_append; lia).
  rewrite prefix_window; [exact H |].
  rewrite length_drop, length_append. lia.
Qed.

Lemma gulp_replace_step (search replacement pre post : string) :
  search <> EmptyString ->
  (forall i, i < String.length pre ->
             String.prefix search (drop i (pre +:+ search +:+ post))
             = false) ->
  gulp_replace search replacement (pre +:+ search +:+ post)
  = pre +:+ replacement +:+ gulp_replace search replacement post.
Proof.
  intros Hsep Hno. unfold gulp_replace.
  rewrite !split_nonempty_separator by exact Hsep.
  rewrite split_aux_first_match by assumption.
  now rewrite join_cons by apply split_aux_nonempty.
Qed.

(** Contents woven from chunks and the pattern: every one of the
    patterns between the chunks is replaced. *)
Lemma gulp_replace_chunks (search replacement last : string)
    (chunks : list string) :
  search <> EmptyString ->
  Forall (fun c => occurrences search (c +:+ search) = [String.length c])
         chunks ->
  occurrences search last = [] ->
  gulp_replace search replacement (join search (chunks ++ [last])%list)
  = join replacement (chunks ++ [last])%list.
Proof.
  intros Hsep Hchunks Hlast.
  induction chunks as [|c chunks IH].
  - cbn [List.app join]. now apply gulp_replace_absent.
  - inversion Hchunks as [|? ? Hc Hrest]; subst.
    cbn [List.app].
    rewrite !join_cons by (now destruct chunks).
    rewrite gulp_replace_step; [| exact Hsep |].
    + now rewrite (IH Hrest).
    + intros i Hi. now apply chunk_no_early.
Qed.

End EveryOccurrence.

(** C4, as stated, fails: on a version file that names the placeholder
    twice the task rewrites both occurrences, which no rewriting of a
    single occurrence gives. *)
Lemma set_rewrites_both_occurrences :
  Stamper.core_semver_valid "1.2.3" = true
  /\ Stamper.set Stamper.core_semver_valid Stamper.ascii_roundtrip
       (Stamper.str "1.2.3") Stamper.two_token_tree
     = (None,
        {[ Stamper.versionFile := "/* 1.2.3 */ export default '1.2.3'" ]})
  /\ ~ Stamper.stamps_exactly_one Stamper.core_semver_valid
         Stamper.ascii_roundtrip "1.2.3" Stamper.two_token_tree.
Proof.
  assert (Stamper.set Stamper.core_semver_valid Stamper.ascii_roundtrip
            (Stamper.str "1.2.3") Stamper.two_token_tree
          = (None,
             {[ Stamper.versionFile :=
                  "/* 1.2.3 */ export default '1.2.3'" ]})) as Hset.
  { unfold Stamper.set, Stamper.two_token_tree.
    cbn [Stamper.valid negb].
    change (Stamper.core_semver_valid "1.2.3") with true. cbn [negb].
    rewrite lookup_singleton_eq.
    change (Stamper.gulp_replace _ _ _)
      with "/* 1.2.3 */ export default '1.2.3'".
    now rewrite insert_singleton_eq. }
  split; [reflexivity |]. split; [exact Hset |].
  intros (fs' & pre & post & Hrun & Hold & Hnew & _).
  rewrite Hset in Hrun. injection Hrun as <-.
  unfold Stamper.two_token_tree in Hold.
  rewrite lookup_singleton_eq in Hold, Hnew.
  injection Hold as Hold. injection Hnew as Hnew.
  assert (In (String.length pre)
             (JsString.occurrences Stamper.placeholder
                "/* 0.0.0-dev */ export default '0.0.0-dev'")) as Hin.
  { rewrite Hold. apply in_occurrences. split.
    - rewrite length_append. lia.
    - now rewrite drop_append, prefix_append. }
  assert (pre = JsString.take (String.length pre)
                  "/* 0.0.0-dev */ export default '0.0.0-dev'") as Hpre
    by (rewrite Hold; symmetry; apply take_append).
  assert (post = JsString.drop (String.length pre + 9)
                   "/* 0.0.0-dev */ export default '0.0.0-dev'") as Hpost.
  { rewrite Hold, drop_plus, drop_append.
    symmetry. apply (drop_append Stamper.placeholder). }
  assert (JsString.occurrences Stamper.placeholder
            "/* 0.0.0-dev */ export default '0.0.0-dev'" = [3; 32])
    as Hocc by reflexivity.
  rewrite Hocc in Hin. clear Hocc. cbn [In] in Hin.
  destruct Hin as [Hlen | [Hlen | []]]; rewrite <- Hlen in Hpre, Hpost;
    vm_compute in Hpre, Hpost; subst pre post; vm_compute in Hnew;
    discriminate Hnew.
Qed.

(** C4, amended: with a valid version and the designated file present,
    the task succeeds and replaces every occurrence of the placeholder
    in the designated file, as many as there are: when the contents,
    read as UTF-8, are chunks with the placeholder between them, the
    file is left holding the same chunks with the version between
    them; every other file is as before. *)
Theorem set_stamps_every_occurrence (semver_valid : string -> bool)
    (utf8_roundtrip : string -> string)
    (v contents last : string) (chunks : list string)
    (fs : gmap string string) :
  semver_valid v = true ->
  fs !! Stamper.versionFile = Some contents ->
  utf8_roundtrip contents
  = JsString.join Stamper.placeholder (chunks ++ [last])%list ->
  Forall (fun c =>
            JsString.occurrences Stamper.placeholder
              (c +:+ Stamper.placeholder) = [String.length c]) chunks ->
  JsString.occurrences Stamper.placeholder last = [] ->
  exists fs',
    Stamper.set semver_valid utf8_roundtrip (Stamper.str v) fs
    = (None, fs')
    /\ fs' !! Stamper.versionFile
       = Some (JsString.join v (chunks ++ [last])%list)
    /\ (forall p, p <> Stamper.versionFile -> fs' !! p = fs !! p).
Proof.
  intros Hv Hfile Htext Hchunks Hlast.
  exists (<[Stamper.versionFile :=
              JsString.join v (chunks ++ [last])%list]> fs).
  repeat split.
  - unfold Stamper.set, Stamper.valid. rewrite Hv, Hfile, Htext.
    cbn [negb Stamper.to_template].
    now rewrite (gulp_replace_chunks _ v last chunks placeholder_nonempty
                   Hchunks Hlast).
  - apply lookup_insert_eq.
  - intros p Hp. now apply lookup_insert_ne.
Qed.

Lemma set_stamps_every_occurrence_witness :
  exists fs',
    Stamper.set Stamper.core_semver_valid Stamper.ascii_roundtrip
      (Stamper.str "1.2.3") Stamper.two_token_tree
    = (None, fs')
    /\ fs' !! Stamper.versionFile
       = Some (JsString.join "1.2.3"
                 (["/* "; " */ export default '"] ++ ["'"])%list)
    /\ (forall p, p <> Stamper.versionFile ->
                  fs' !! p = Stamper.two_token_tree !! p).
Proof.
  apply (set_stamps_every_occurrence Stamper.core_semver_valid
           Stamper.ascii_roundtrip "1.2.3"
           "/* 0.0.0-dev */ export default '0.0.0-dev'" "'"
           ["/* "; " */ export default '"] Stamper.two_token_tree).
  - reflexivity.
  - apply lookup_singleton_eq.
  - reflexivity.
  - repeat constructor.
  - reflexivity.
Defined.
